(** * The Discovery and ThirdPartyResources clients and their watch adapters

    A shallow embedding of [tprs.go] and of the discovery client of
    package [k8s].  Both files are call sites over the unexported methods of
    [*Client] ([get], [create], [delete], [watch], [urlFor], [urlForPath])
    and of [*watcher] ([next], [Close]).  Those methods are not part of the
    two files; they are the fields of the class [Collaborators], so every theorem holds
    for any dispatcher and any watch stream decoder.

    Go code that calls collaborators is written in a state monad over a
    [World]: the trace of the calls crossing the boundary, in order, and the
    store the collaborators may read and write (the heap of objects reached
    through pointers and the state of the connection). *)

From Stdlib Require Import String Ascii List Bool Arith Lia.
Import ListNotations.
Local Open Scope string_scope.
Local Open Scope list_scope.

Set Implicit Arguments.

(** ** Plain data *)

(** The two package-level codec values. *)
Inductive Codec : Type :=
| jsonCodec
| pbCodec.

(** A Go [error] value.  [errors_New msg] is what [errors.New(msg)] builds;
    [foreign_error] stands for an error value of any other dynamic type, as
    collaborators hand them out. *)
Inductive error : Type :=
| errors_New (msg : string)
| foreign_error (origin : string) (code : nat).

Definition bytes := list Byte.byte.

(** A pointer to an object on the heap. *)
Definition loc := nat.

(** An [interface{}] argument: [None] is the nil interface, [Some l] a
    pointer to the caller's object. *)
Definition iface := option loc.

(** [type Version struct], nine string fields. *)
Record Version : Type := {
  Major : string;
  Minor : string;
  GitVersion : string;
  GitCommit : string;
  GitTreeState : string;
  BuildDate : string;
  GoVersion : string;
  Compiler : string;
  Platform : string
}.

(** [var v Version]: the zero value. *)
Definition zero_Version : Version :=
  {| Major := ""; Minor := ""; GitVersion := ""; GitCommit := "";
     GitTreeState := ""; BuildDate := ""; GoVersion := ""; Compiler := "";
     Platform := "" |}.

(** The part of [runtime.Unknown] the adapters read: its [Raw] bytes. *)
Record Unknown : Type := { Raw : bytes }.

(** ** Resource identity *)

(** [checkResource]: the five tests in source order, the first empty
    argument decides the error. *)
Definition checkResource
  (apiGroup apiVersion resource namespace name : string) : option error :=
  if (apiGroup =? "")%string then Some (errors_New "no api group provided")
  else if (apiVersion =? "")%string then Some (errors_New "no api version provided")
  else if (resource =? "")%string then Some (errors_New "no resource version provided")
  else if (namespace =? "")%string then Some (errors_New "no namespace provided")
  else if (name =? "")%string then Some (errors_New "no resource name provided")
  else None.

(** The five components of a resource identity, and the words by which an
    error message can refer to each. *)
Inductive Field : Type :=
| F_apiGroup
| F_apiVersion
| F_resource
| F_namespace
| F_name.

Definition field_word (f : Field) : string :=
  match f with
  | F_apiGroup => "api group"
  | F_apiVersion => "api version"
  | F_resource => "resource"
  | F_namespace => "namespace"
  | F_name => "name"
  end.

Definition field_value (f : Field)
  (apiGroup apiVersion resource namespace name : string) : string :=
  match f with
  | F_apiGroup => apiGroup
  | F_apiVersion => apiVersion
  | F_resource => resource
  | F_namespace => namespace
  | F_name => name
  end.

Definition Field_eqb (f g : Field) : bool :=
  match f, g with
  | F_apiGroup, F_apiGroup
  | F_apiVersion, F_apiVersion
  | F_resource, F_resource
  | F_namespace, F_namespace
  | F_name, F_name => true
  | _, _ => false
  end.

(** The place of a field in the order in which [checkResource] tests its
    arguments. *)
Definition Field_index (f : Field) : nat :=
  match f with
  | F_apiGroup => 0
  | F_apiVersion => 1
  | F_resource => 2
  | F_namespace => 3
  | F_name => 4
  end.

(** [occurs_in word msg]: [word] is a substring of [msg]. *)
Definition occurs_in (word msg : string) : bool :=
  match String.index 0 word msg with
  | Some _ => true
  | None => false
  end.

(** The message of an error built by [errors.New]. *)
Definition error_message (e : error) : option string :=
  match e with
  | errors_New msg => Some msg
  | foreign_error _ _ => None
  end.

(** The field whose absence an error of [checkResource] reports, read back
    from the message alone. *)
Definition reported_field (e : error) : option Field :=
  match error_message e with
  | Some "no api group provided" => Some F_apiGroup
  | Some "no api version provided" => Some F_apiVersion
  | Some "no resource version provided" => Some F_resource
  | Some "no namespace provided" => Some F_namespace
  | Some "no resource name provided" => Some F_name
  | _ => None
  end.

(** ** What the two files take from the rest of the package *)

(** Types declared elsewhere: the generated API types of
    [api/unversioned] and [watch/versioned], the user's own third party
    resource types, [context.Context], and the unexported [Client] and
    [watcher] structs, with the zero values the discovery client declares
    locals of. *)
Class Schema : Type := {
  context_Context : Type;
  Event : Type;
  APIGroupList : Type;
  APIGroup : Type;
  APIResourceList : Type;
  APIResource : Type;
  Custom : Type;
  Client : Type;
  watcher : Type;
  Net : Type;
  zero_APIGroupList : APIGroupList;
  zero_APIGroup : APIGroup;
  zero_APIResourceList : APIResourceList
}.

Section Model.

Context {S : Schema}.

(** What a pointer handed to the dispatcher can point to. *)
Inductive Value : Type :=
| V_Version (v : Version)
| V_APIGroupList (l : APIGroupList)
| V_APIGroup (g : APIGroup)
| V_APIResourceList (l : APIResourceList)
| V_Custom (o : Custom).

(** Everything a collaborator can read or write: the heap ([loc] is an
    index into it) and the state of the connection and of the open watch
    streams. *)
Record Store : Type := {
  heap : list Value;
  net : Net
}.

(** A collaborator's method: any function of the store. *)
Definition Ext (A : Type) : Type := Store -> A * Store.

(** The calls that cross the boundary of the two files. *)
Inductive Call : Type :=
| call_get (codec : Codec) (url : string) (resp : iface)
| call_create (codec : Codec) (method url : string) (req resp : iface)
| call_delete (codec : Codec) (url : string)
| call_watch (url : string)
| call_next (w : watcher)
| call_Close (w : watcher)
| call_Unmarshal (raw : bytes)
| call_Println (raw : bytes).

Record World : Type := {
  trace : list Call;
  store : Store
}.

(** The state monad the methods are written in. *)
Definition M (A : Type) : Type := World -> A * World.

Definition ret {A : Type} (a : A) : M A := fun w => (a, w).

Definition bind {A B : Type} (m : M A) (k : A -> M B) : M B :=
  fun w => let (a, w') := m w in k a w'.

(** [record c]: the call [c] happens now. *)
Definition record (c : Call) : M unit :=
  fun w => (tt, {| trace := trace w ++ [c]; store := store w |}).

(** [run f]: the collaborator's method [f] acts on the store. *)
Definition run {A : Type} (f : Ext A) : M A :=
  fun w => let (a, s) := f (store w) in (a, {| trace := trace w; store := s |}).

(** [var v T] followed by [&v]: a fresh object on the heap. *)
Definition new (v : Value) : M loc :=
  fun w => (length (heap (store w)),
            {| trace := trace w;
               store := {| heap := heap (store w) ++ [v];
                           net := net (store w) |} |}).

End Model.

Declare Scope go_scope.
Delimit Scope go_scope with go.
Notation "x <- m ;; k" := (bind m (fun x => k))
  (at level 61, m at next level, right associativity) : go_scope.
Notation "m ;;; k" := (bind m (fun _ => k))
  (at level 61, right associativity) : go_scope.
Local Open Scope go_scope.

(** Functions defined elsewhere: the methods of [*Client] and [*watcher],
    [proto.Unmarshal] into a fresh [APIResource] and [path.Join].  A Go
    result [(value, error)] is a sum: the callers here read the value only
    after they found the error nil.  [next] returns its event and its
    envelope together. *)
Class Collaborators {S : Schema} : Type := {
  urlFor : Client -> string -> string -> string -> string -> string -> string;
  urlForPath : Client -> string -> string;
  get : Client -> context_Context -> Codec -> string -> iface -> Ext (option error);
  create : Client -> context_Context -> Codec -> string -> string -> iface -> iface
           -> Ext (option error);
  delete : Client -> context_Context -> Codec -> string -> Ext (option error);
  watch : Client -> context_Context -> string -> Ext (error + watcher);
  next : watcher -> Ext (error + Event * Unknown);
  Close : watcher -> Ext (option error);
  proto_Unmarshal : bytes -> error + APIResource;
  path_Join : list string -> string
}.

Section Operations.

Context {S : Schema} {X : Collaborators}.

(** ** Calls through the boundary

    Each call is recorded on the trace with its arguments, then the
    collaborator runs. *)

Definition Client_get (c : Client) (ctx : context_Context) (codec : Codec)
  (url : string) (resp : iface) : M (option error) :=
  record (call_get codec url resp) ;;; run (get c ctx codec url resp).

Definition Client_create (c : Client) (ctx : context_Context) (codec : Codec)
  (method url : string) (req resp : iface) : M (option error) :=
  record (call_create codec method url req resp) ;;;
  run (create c ctx codec method url req resp).

Definition Client_delete (c : Client) (ctx : context_Context) (codec : Codec)
  (url : string) : M (option error) :=
  record (call_delete codec url) ;;; run (delete c ctx codec url).

Definition Client_watch (c : Client) (ctx : context_Context) (url : string)
  : M (error + watcher) :=
  record (call_watch url) ;;; run (watch c ctx url).

Definition watcher_next (w : watcher) : M (error + Event * Unknown) :=
  record (call_next w) ;;; run (next w).

Definition watcher_Close (w : watcher) : M (option error) :=
  record (call_Close w) ;;; run (Close w).

Definition Unmarshal (raw : bytes) : M (error + APIResource) :=
  record (call_Unmarshal raw) ;;; ret (proto_Unmarshal raw).

Definition fmt_Println (raw : bytes) : M unit :=
  record (call_Println raw).

(** ** tprs.go *)

Record ThirdPartyResources : Type := {
  c : Client;
  apiGroup : string;
  apiVersion : string
}.

(** [func (c *Client) ThirdPartyResources(apiGroup, apiVersion string)] *)
Definition Client_ThirdPartyResources (c0 : Client) (apiGroup0 apiVersion0 : string)
  : ThirdPartyResources :=
  {| c := c0; apiGroup := apiGroup0; apiVersion := apiVersion0 |}.

Definition ThirdPartyResources_Create (t : ThirdPartyResources)
  (ctx : context_Context) (resource namespace : string) (req resp : iface)
  : M (option error) :=
  match checkResource (apiGroup t) (apiVersion t) resource namespace "not required" with
  | Some err => ret (Some err)
  | None =>
      let url := urlFor (c t) (apiGroup t) (apiVersion t) namespace resource "" in
      Client_create (c t) ctx jsonCodec "POST" url req resp
  end.

Definition ThirdPartyResources_Update (t : ThirdPartyResources)
  (ctx : context_Context) (resource namespace name : string) (req resp : iface)
  : M (option error) :=
  match checkResource (apiGroup t) (apiVersion t) resource namespace "not required" with
  | Some err => ret (Some err)
  | None =>
      let url := urlFor (c t) (apiGroup t) (apiVersion t) namespace resource name in
      Client_create (c t) ctx jsonCodec "PUT" url req resp
  end.

Definition ThirdPartyResources_Get (t : ThirdPartyResources)
  (ctx : context_Context) (resource namespace name : string) (resp : iface)
  : M (option error) :=
  match checkResource (apiGroup t) (apiVersion t) resource namespace name with
  | Some err => ret (Some err)
  | None =>
      let url := urlFor (c t) (apiGroup t) (apiVersion t) namespace resource name in
      Client_get (c t) ctx jsonCodec url resp
  end.

Definition ThirdPartyResources_Delete (t : ThirdPartyResources)
  (ctx : context_Context) (resource namespace name : string)
  : M (option error) :=
  match checkResource (apiGroup t) (apiVersion t) resource namespace name with
  | Some err => ret (Some err)
  | None =>
      let url := urlFor (c t) (apiGroup t) (apiVersion t) namespace resource name in
      Client_delete (c t) ctx jsonCodec url
  end.

Definition ThirdPartyResources_List (t : ThirdPartyResources)
  (ctx : context_Context) (resource namespace : string) (resp : iface)
  : M (option error) :=
  match checkResource (apiGroup t) (apiVersion t) resource namespace "name not required" with
  | Some err => ret (Some err)
  | None =>
      let url := urlFor (c t) (apiGroup t) (apiVersion t) namespace resource "" in
      Client_get (c t) ctx jsonCodec url resp
  end.

Record ThirdPartyResourceWatcher : Type := {
  tpr_watcher : watcher
}.

(** [ThirdPartyResourceWatcher.Next]: the typed object is the nil
    [interface{}] declared by [var resp interface{}]; the call of
    [proto.Unmarshal] is inside a comment in the source and is no part of
    the function. *)
Definition ThirdPartyResourceWatcher_Next (w : ThirdPartyResourceWatcher)
  : M (option Event * option Value * option error) :=
  r <- watcher_next (tpr_watcher w) ;;
  match r with
  | inl err => ret (None, None, Some err)
  | inr (event, unknown) =>
      fmt_Println (Raw unknown) ;;;
      let resp : option Value := None in
      ret (Some event, resp, None)
  end.

Definition ThirdPartyResourceWatcher_Close (w : ThirdPartyResourceWatcher)
  : M (option error) :=
  watcher_Close (tpr_watcher w).

Definition ThirdPartyResources_Watch (t : ThirdPartyResources)
  (ctx : context_Context) (resource namespace : string)
  : M (option ThirdPartyResourceWatcher * option error) :=
  match checkResource (apiGroup t) (apiVersion t) resource namespace "name not required" with
  | Some err => ret (None, Some err)
  | None =>
      let url := urlFor (c t) (apiGroup t) (apiVersion t) namespace resource "" in
      r <- Client_watch (c t) ctx url ;;
      match r with
      | inl err => ret (None, Some err)
      | inr watcher0 => ret (Some {| tpr_watcher := watcher0 |}, None)
      end
  end.

(** ** The discovery client *)

Record Discovery : Type := {
  client : Client
}.

(** [func (c *Client) Discovery() *Discovery] *)
Definition Client_Discovery (c0 : Client) : Discovery := {| client := c0 |}.

Definition Discovery_Version (d : Discovery) (ctx : context_Context)
  : M (option loc * option error) :=
  v <- new (V_Version zero_Version) ;;
  err <- Client_get (client d) ctx jsonCodec (urlForPath (client d) "version") (Some v) ;;
  match err with
  | Some e => ret (None, Some e)
  | None => ret (Some v, None)
  end.

Definition Discovery_APIGroups (d : Discovery) (ctx : context_Context)
  : M (option loc * option error) :=
  groups <- new (V_APIGroupList zero_APIGroupList) ;;
  err <- Client_get (client d) ctx pbCodec (urlForPath (client d) "apis") (Some groups) ;;
  match err with
  | Some e => ret (None, Some e)
  | None => ret (Some groups, None)
  end.

Definition Discovery_APIGroup (d : Discovery) (ctx : context_Context) (name : string)
  : M (option loc * option error) :=
  group <- new (V_APIGroup zero_APIGroup) ;;
  err <- Client_get (client d) ctx pbCodec
           (urlForPath (client d) (path_Join ["apis"; name])) (Some group) ;;
  match err with
  | Some e => ret (None, Some e)
  | None => ret (Some group, None)
  end.

Definition Discovery_APIResources (d : Discovery) (ctx : context_Context)
  (groupName groupVersion : string) : M (option loc * option error) :=
  list <- new (V_APIResourceList zero_APIResourceList) ;;
  err <- Client_get (client d) ctx pbCodec
           (urlForPath (client d) (path_Join ["apis"; groupName; groupVersion]))
           (Some list) ;;
  match err with
  | Some e => ret (None, Some e)
  | None => ret (Some list, None)
  end.

Record APIWatcher : Type := {
  api_watcher : watcher
}.

Definition APIWatcher_Next (w : APIWatcher)
  : M (option Event * option APIResource * option error) :=
  r <- watcher_next (api_watcher w) ;;
  match r with
  | inl err => ret (None, None, Some err)
  | inr (event, unknown) =>
      d <- Unmarshal (Raw unknown) ;;
      match d with
      | inl err => ret (None, None, Some err)
      | inr resp => ret (Some event, Some resp, None)
      end
  end.

Definition APIWatcher_Close (w : APIWatcher) : M (option error) :=
  watcher_Close (api_watcher w).

Definition Discovery_APIWatch (d : Discovery) (ctx : context_Context)
  (groupName groupVersion : string) : M (option APIWatcher * option error) :=
  let url := urlForPath (client d) (path_Join ["apis"; groupName; groupVersion]) in
  r <- Client_watch (client d) ctx url ;;
  match r with
  | inl err => ret (None, Some err)
  | inr watcher0 => ret (Some {| api_watcher := watcher0 |}, None)
  end.

(** ** Reading a trace *)

(** The calls made between world [w] and a later world [w']. *)
Definition calls_since (w w' : World) : list Call :=
  skipn (length (trace w)) (trace w').

(** The codec argument of a call to the dispatcher; [None] for the calls
    that take none. *)
Definition codec_of (k : Call) : option Codec :=
  match k with
  | call_get codec _ _ => Some codec
  | call_create codec _ _ _ _ => Some codec
  | call_delete codec _ => Some codec
  | _ => None
  end.

(** A decode of payload bytes through the binary codec. *)
Definition is_decode (k : Call) : bool :=
  match k with
  | call_Unmarshal _ => true
  | _ => false
  end.

(** Every call of [ks] that carries a codec argument carries [codec], and
    every call of [ks] carries one. *)
Definition dispatched_with (codec : Codec) (ks : list Call) : Prop :=
  Forall (fun k => codec_of k = Some codec) ks.

(** [m], started in [w], only adds to the trace; what it adds are calls
    with [codec] as their codec argument, none when the check [check] of the
    identity failed and one when it passed. *)
Definition dispatches_only_with {A : Type} (codec : Codec) (m : M A) (w : World)
  (check : option error) : Prop :=
  let ks := calls_since w (snd (m w)) in
  trace (snd (m w)) = trace w ++ ks
  /\ dispatched_with codec ks
  /\ length ks = match check with Some _ => 0 | None => 1 end.

(** [m], started in [w], returns [a] and leaves the world as it found it:
    nothing was added to the trace and the store, the heap with the
    caller's objects included, is the same. *)
Definition returns_untouched {A : Type} (m : M A) (a : A) (w : World) : Prop :=
  fst (m w) = a /\ trace (snd (m w)) = trace w /\ store (snd (m w)) = store w.

(** The contract of a typed watch adapter whose [Next] is [Next0] over the
    watcher [wt]: when the watcher's [next] succeeds, [Next0] has called
    [next] and then the binary decoder on the envelope's raw bytes, a decode
    failure comes back as the error with nil event and nil object, and a
    decoded object comes back with the event. *)
Definition decodes_payload {T : Type}
  (Next0 : M (option Event * option T * option error)) (wt : watcher) (w : World)
  : Prop :=
  forall (ev : Event) (u : Unknown) (s' : Store),
    next wt (store w) = (inr (ev, u), s') ->
    calls_since w (snd (Next0 w)) = [call_next wt; call_Unmarshal (Raw u)]
    /\ (forall err, proto_Unmarshal (Raw u) = inl err ->
                    fst (Next0 w) = (None, None, Some err))
    /\ (forall resp, proto_Unmarshal (Raw u) = inr resp ->
                     exists obj, fst (Next0 w) = (Some ev, Some obj, None)).

(** [m], started in [w], stops at a failed check or runs one collaborator:
    when [check] is the error [e] it returns [rejected e] in the world it
    started in; when [check] is nil it records the call [k], runs the
    collaborator [f] on the store, returns what [f] returns and leaves the
    store [f] leaves. *)
Definition performs {A : Type} (m : M A) (w : World) (check : option error)
  (rejected : error -> A) (k : Call) (f : Ext A) : Prop :=
  m w = match check with
        | Some e => (rejected e, w)
        | None => (fst (f (store w)),
                   {| trace := trace w ++ [k]; store := snd (f (store w)) |})
        end.

(** A typed watch adapter whose [Next] is [Next0] over the watcher [wt]
    keeps a failure of the payload decode apart from a failure of the
    stream: what [Next0] returns when [next] fails is never what it returns
    when [next] succeeds and the decoder fails. *)
Definition decode_failure_distinct {T : Type}
  (Next0 : M (option Event * option T * option error)) (wt : watcher) : Prop :=
  forall (w1 w2 : World) (e1 e2 : error) (ev : Event) (u : Unknown) (s1 s2 : Store),
    next wt (store w1) = (inl e1, s1) ->
    next wt (store w2) = (inr (ev, u), s2) ->
    proto_Unmarshal (Raw u) = inl e2 ->
    fst (Next0 w1) <> fst (Next0 w2).

(** [m], started in [w], is one request of the discovery client: the
    dispatcher is handed a fresh location holding [zero], and [m] returns
    that location when the dispatcher returns nil, and a nil pointer with
    the dispatcher's error otherwise; the store is the one the dispatcher
    left. *)
Definition fetches_into_fresh (zero : Value) (c0 : Client) (ctx : context_Context)
  (codec : Codec) (url : string) (m : M (option loc * option error)) (w : World)
  : Prop :=
  let target := length (heap (store w)) in
  let s1 := {| heap := heap (store w) ++ [zero]; net := net (store w) |} in
  nth_error (heap s1) target = Some zero
  /\ (forall l, l < target -> nth_error (heap s1) l = nth_error (heap (store w)) l)
  /\ fst (m w)
     = match fst (get c0 ctx codec url (Some target) s1) with
       | Some e => (None, Some e)
       | None => (Some target, None)
       end
  /\ store (snd (m w)) = snd (get c0 ctx codec url (Some target) s1).

End Operations.

(** ** A concrete server

    One instance of the collaborators, small enough to evaluate: the
    dispatcher always succeeds and leaves the store alone, the single watch
    stream hands out the frames queued in [net] one by one and reports the
    end of the stream when none is left, and the binary decoder rejects an
    empty payload. *)

Definition demo_Schema : Schema :=
  {| context_Context := unit;
     Event := string;
     APIGroupList := list string;
     APIGroup := string;
     APIResourceList := list string;
     APIResource := string;
     Custom := bytes;
     Client := string;
     watcher := nat;
     Net := list (string * bytes);
     zero_APIGroupList := [];
     zero_APIGroup := "";
     zero_APIResourceList := [] |}.

Definition demo_urlFor (endpoint apiGroup apiVersion namespace resource name : string)
  : string :=
  (endpoint ++ "/apis/" ++ apiGroup ++ "/" ++ apiVersion ++ "/namespaces/" ++ namespace
    ++ "/" ++ resource ++ (if name =? "" then "" else "/" ++ name))%string.

Definition demo_urlForPath (endpoint p : string) : string :=
  (endpoint ++ "/" ++ p)%string.

Definition demo_next (w : @watcher demo_Schema)
  : @Ext demo_Schema (error + @Event demo_Schema * Unknown) :=
  fun s =>
    match net s with
    | [] => (inl (foreign_error "io.EOF" 0), s)
    | (ev, raw) :: rest =>
        (inr (ev, {| Raw := raw |}), @Build_Store demo_Schema (heap s) rest)
    end.

Definition demo_Unmarshal (raw : bytes) : error + @APIResource demo_Schema :=
  match raw with
  | [] => inl (foreign_error "proto: unexpected EOF" 1)
  | _ :: _ => inr "APIResource"
  end.

Definition demo_Collaborators : @Collaborators demo_Schema :=
  {| urlFor := demo_urlFor : @Client demo_Schema -> _;
     urlForPath := demo_urlForPath : @Client demo_Schema -> _;
     get := fun _ _ _ _ _ s => (None, s);
     create := fun _ _ _ _ _ _ _ s => (None, s);
     delete := fun _ _ _ _ s => (None, s);
     watch := fun _ _ _ s => (inr 0, s);
     next := demo_next;
     Close := fun _ s => (None, s);
     proto_Unmarshal := demo_Unmarshal;
     path_Join := String.concat "/" |}.

(** A world with nothing on the trace, an empty heap and the given frames
    waiting on the stream. *)
Definition demo_world (frames : list (string * bytes)) : @World demo_Schema :=
  @Build_World demo_Schema [] (@Build_Store demo_Schema [] frames).

Definition demo_client : @Client demo_Schema := "https://k8s.example.com".

Definition demo_tprs : @ThirdPartyResources demo_Schema :=
  Client_ThirdPartyResources (S := demo_Schema) demo_client "metrics.example.com" "v1".

Definition demo_discovery : @Discovery demo_Schema :=
  Client_Discovery (S := demo_Schema) demo_client.

(** The two adapters over the one stream, and a stream holding one frame:
    an ADDED event with a payload of one byte. *)
Definition demo_api_watcher : @APIWatcher demo_Schema :=
  @Build_APIWatcher demo_Schema 0.

Definition demo_tpr_watcher : @ThirdPartyResourceWatcher demo_Schema :=
  @Build_ThirdPartyResourceWatcher demo_Schema 0.

Definition demo_frames : list (string * bytes) := [("ADDED", [Byte.x01])].

(** A second server, the first one but for its failures: a stream that
    ends before a frame is complete and a payload that ends before the
    message is complete are both reported with [io.ErrUnexpectedEOF]. *)
Definition io_ErrUnexpectedEOF : error := foreign_error "io.ErrUnexpectedEOF" 0.

Definition short_next (w : @watcher demo_Schema)
  : @Ext demo_Schema (error + @Event demo_Schema * Unknown) :=
  fun s =>
    match net s with
    | [] => (inl io_ErrUnexpectedEOF, s)
    | (ev, raw) :: rest =>
        (inr (ev, {| Raw := raw |}), @Build_Store demo_Schema (heap s) rest)
    end.

Definition short_Unmarshal (raw : bytes) : error + @APIResource demo_Schema :=
  match raw with
  | [] => inl io_ErrUnexpectedEOF
  | _ :: _ => inr "APIResource"
  end.

Definition short_Collaborators : @Collaborators demo_Schema :=
  {| urlFor := demo_urlFor : @Client demo_Schema -> _;
     urlForPath := demo_urlForPath : @Client demo_Schema -> _;
     get := fun _ _ _ _ _ s => (None, s);
     create := fun _ _ _ _ _ _ _ s => (None, s);
     delete := fun _ _ _ _ s => (None, s);
     watch := fun _ _ _ s => (inr 0, s);
     next := short_next;
     Close := fun _ s => (None, s);
     proto_Unmarshal := short_Unmarshal;
     path_Join := String.concat "/" |}.

(** * Properties *)

(** ** checkResource *)

Lemma eqb_empty_false (s : string) : s <> "" -> (s =? "")%string = false.
Proof. intro H. now apply String.eqb_neq. Qed.

Lemma checkResource_complete (g v r ns n : string) :
  g <> "" -> v <> "" -> r <> "" -> ns <> "" -> n <> "" ->
  checkResource g v r ns n = None.
Proof.
  intros Hg Hv Hr Hns Hn. unfold checkResource.
  now rewrite !eqb_empty_false.
Qed.

Lemma checkResource_some_iff (g v r ns n : string) :
  (exists e, checkResource g v r ns n = Some e) <->
  g = "" \/ v = "" \/ r = "" \/ ns = "" \/ n = "".
Proof.
  unfold checkResource.
  destruct (String.eqb_spec g ""); [split; eauto|].
  destruct (String.eqb_spec v ""); [split; eauto|].
  destruct (String.eqb_spec r ""); [split; eauto 6|].
  destruct (String.eqb_spec ns ""); [split; eauto 6|].
  destruct (String.eqb_spec n ""); [split; eauto 7|].
  split; [intros [e He]; discriminate | tauto].
Qed.

(** C1. [checkResource] returns nil when its five arguments are all
    non-empty; when exactly one of them is empty it returns an error made by
    [errors.New] whose message contains the word for that field and from
    which that field, and no other, is read back. *)
Theorem checkResource_names_missing_field :
  (forall g v r ns n : string,
      g <> "" -> v <> "" -> r <> "" -> ns <> "" -> n <> "" ->
      checkResource g v r ns n = None)
  /\
  (forall (f : Field) (g v r ns n : string),
      field_value f g v r ns n = "" ->
      (forall f', f' <> f -> field_value f' g v r ns n <> "") ->
      exists msg,
        checkResource g v r ns n = Some (errors_New msg)
        /\ occurs_in (field_word f) msg = true
        /\ reported_field (errors_New msg) = Some f).
Proof.
  split; [exact checkResource_complete|].
  intros f g v r ns n Hf Hrest.
  assert (Hne : forall f', Field_eqb f' f = false ->
                           (field_value f' g v r ns n =? "")%string = false).
  { intros f' Hb. apply eqb_empty_false, Hrest. intro E; subst f'.
    destruct f; discriminate Hb. }
  unfold checkResource.
  destruct f; simpl in Hf; subst;
    repeat match goal with
    | |- context [(?s =? "")%string] =>
        first [ change ((s =? "")%string) with true; cbv iota
              | rewrite (Hne F_apiGroup eq_refl : (g =? "")%string = false)
              | rewrite (Hne F_apiVersion eq_refl : (v =? "")%string = false)
              | rewrite (Hne F_resource eq_refl : (r =? "")%string = false)
              | rewrite (Hne F_namespace eq_refl : (ns =? "")%string = false)
              | rewrite (Hne F_name eq_refl : (n =? "")%string = false) ]
    end;
    eexists; repeat split; reflexivity.
Qed.

(** C1 at a concrete identity: complete, and with only the resource
    missing. *)
Lemma checkResource_names_missing_field_witness :
  checkResource "metrics.example.com" "v1" "metrics" "default" "foo" = None
  /\ exists msg,
       checkResource "metrics.example.com" "v1" "" "default" "foo"
         = Some (errors_New msg)
       /\ occurs_in (field_word F_resource) msg = true
       /\ reported_field (errors_New msg) = Some F_resource.
Proof.
  split.
  - apply (proj1 checkResource_names_missing_field); discriminate.
  - apply (proj2 checkResource_names_missing_field F_resource).
    + reflexivity.
    + intros f' Hf'. destruct f'; simpl; try discriminate. now elim Hf'.
Defined.

Section Properties.

Context {S : Schema} {X : Collaborators}.

(** ** Traces *)

Lemma calls_since_same (w : World) : calls_since w w = [].
Proof. unfold calls_since. apply skipn_all. Qed.

Lemma calls_since_app (w : World) (ks : list Call) (s : Store) :
  calls_since w {| trace := trace w ++ ks; store := s |} = ks.
Proof.
  unfold calls_since; simpl.
  rewrite skipn_app, skipn_all, Nat.sub_diag. reflexivity.
Qed.

Lemma returns_untouched_intro {A : Type} (m : M A) (a : A) (w : World) :
  m w = (a, w) -> returns_untouched m a w.
Proof. intro E. unfold returns_untouched. rewrite E. auto. Qed.

(** ** One call through the boundary *)

Lemma Client_get_eq c0 ctx codec url resp (w : World) :
  Client_get c0 ctx codec url resp w =
  (fst (get c0 ctx codec url resp (store w)),
   {| trace := trace w ++ [call_get codec url resp];
      store := snd (get c0 ctx codec url resp (store w)) |}).
Proof.
  unfold Client_get, bind, record, run; simpl.
  destruct (get c0 ctx codec url resp (store w)); reflexivity.
Qed.

Lemma Client_create_eq c0 ctx codec method url req resp (w : World) :
  Client_create c0 ctx codec method url req resp w =
  (fst (create c0 ctx codec method url req resp (store w)),
   {| trace := trace w ++ [call_create codec method url req resp];
      store := snd (create c0 ctx codec method url req resp (store w)) |}).
Proof.
  unfold Client_create, bind, record, run; simpl.
  destruct (create c0 ctx codec method url req resp (store w)); reflexivity.
Qed.

Lemma Client_delete_eq c0 ctx codec url (w : World) :
  Client_delete c0 ctx codec url w =
  (fst (delete c0 ctx codec url (store w)),
   {| trace := trace w ++ [call_delete codec url];
      store := snd (delete c0 ctx codec url (store w)) |}).
Proof.
  unfold Client_delete, bind, record, run; simpl.
  destruct (delete c0 ctx codec url (store w)); reflexivity.
Qed.

Lemma Client_watch_eq c0 ctx url (w : World) :
  Client_watch c0 ctx url w =
  (fst (watch c0 ctx url (store w)),
   {| trace := trace w ++ [call_watch url];
      store := snd (watch c0 ctx url (store w)) |}).
Proof.
  unfold Client_watch, bind, record, run; simpl.
  destruct (watch c0 ctx url (store w)); reflexivity.
Qed.

Lemma watcher_next_eq wt (w : World) :
  watcher_next wt w =
  (fst (next wt (store w)),
   {| trace := trace w ++ [call_next wt]; store := snd (next wt (store w)) |}).
Proof.
  unfold watcher_next, bind, record, run; simpl.
  destruct (next wt (store w)); reflexivity.
Qed.

Lemma watcher_Close_eq wt (w : World) :
  watcher_Close wt w =
  (fst (Close wt (store w)),
   {| trace := trace w ++ [call_Close wt]; store := snd (Close wt (store w)) |}).
Proof.
  unfold watcher_Close, bind, record, run; simpl.
  destruct (Close wt (store w)); reflexivity.
Qed.

(** ** The calls of the third party resource client *)

(** What each operation puts on the trace: nothing when its check of the
    identity fails, one request otherwise. *)

Lemma Create_calls t ctx resource namespace req resp (w : World) :
  calls_since w (snd (ThirdPartyResources_Create t ctx resource namespace req resp w)) =
  match checkResource (apiGroup t) (apiVersion t) resource namespace "not required" with
  | Some _ => []
  | None => [call_create jsonCodec "POST"
               (urlFor (c t) (apiGroup t) (apiVersion t) namespace resource "") req resp]
  end.
Proof.
  unfold ThirdPartyResources_Create.
  destruct (checkResource _ _ _ _ _); simpl.
  - apply calls_since_same.
  - rewrite Client_create_eq. apply calls_since_app.
Qed.

Lemma Update_calls t ctx resource namespace name req resp (w : World) :
  calls_since w (snd (ThirdPartyResources_Update t ctx resource namespace name req resp w)) =
  match checkResource (apiGroup t) (apiVersion t) resource namespace "not required" with
  | Some _ => []
  | None => [call_create jsonCodec "PUT"
               (urlFor (c t) (apiGroup t) (apiVersion t) namespace resource name) req resp]
  end.
Proof.
  unfold ThirdPartyResources_Update.
  destruct (checkResource _ _ _ _ _); simpl.
  - apply calls_since_same.
  - rewrite Client_create_eq. apply calls_since_app.
Qed.

Lemma Get_calls t ctx resource namespace name resp (w : World) :
  calls_since w (snd (ThirdPartyResources_Get t ctx resource namespace name resp w)) =
  match checkResource (apiGroup t) (apiVersion t) resource namespace name with
  | Some _ => []
  | None => [call_get jsonCodec
               (urlFor (c t) (apiGroup t) (apiVersion t) namespace resource name) resp]
  end.
Proof.
  unfold ThirdPartyResources_Get.
  destruct (checkResource _ _ _ _ _); simpl.
  - apply calls_since_same.
  - rewrite Client_get_eq. apply calls_since_app.
Qed.

Lemma Delete_calls t ctx resource namespace name (w : World) :
  calls_since w (snd (ThirdPartyResources_Delete t ctx resource namespace name w)) =
  match checkResource (apiGroup t) (apiVersion t) resource namespace name with
  | Some _ => []
  | None => [call_delete jsonCodec
               (urlFor (c t) (apiGroup t) (apiVersion t) namespace resource name)]
  end.
Proof.
  unfold ThirdPartyResources_Delete.
  destruct (checkResource _ _ _ _ _); simpl.
  - apply calls_since_same.
  - rewrite Client_delete_eq. apply calls_since_app.
Qed.

Lemma List_calls t ctx resource namespace resp (w : World) :
  calls_since w (snd (ThirdPartyResources_List t ctx resource namespace resp w)) =
  match checkResource (apiGroup t) (apiVersion t) resource namespace "name not required" with
  | Some _ => []
  | None => [call_get jsonCodec
               (urlFor (c t) (apiGroup t) (apiVersion t) namespace resource "") resp]
  end.
Proof.
  unfold ThirdPartyResources_List.
  destruct (checkResource _ _ _ _ _); simpl.
  - apply calls_since_same.
  - rewrite Client_get_eq. apply calls_since_app.
Qed.

(** The trace only grows. *)
Lemma trace_grows_same (w : World) : trace w = trace w ++ calls_since w w.
Proof. rewrite calls_since_same. symmetry. apply app_nil_r. Qed.

Lemma trace_grows_app (w : World) (ks : list Call) (s : Store) :
  trace {| trace := trace w ++ ks; store := s |}
  = trace w ++ calls_since w {| trace := trace w ++ ks; store := s |}.
Proof. rewrite calls_since_app. reflexivity. Qed.

Ltac one_json_request calls_eq boundary_eq :=
  unfold dispatches_only_with; cbv zeta;
  split; [| rewrite calls_eq; unfold dispatched_with;
            destruct (checkResource _ _ _ _ _); repeat constructor ];
  unfold ThirdPartyResources_Create, ThirdPartyResources_Update,
    ThirdPartyResources_Get, ThirdPartyResources_Delete, ThirdPartyResources_List;
  destruct (checkResource _ _ _ _ _); simpl;
  [ apply trace_grows_same | rewrite boundary_eq; apply trace_grows_app ].

Ltac one_performed boundary_eq :=
  unfold performs, ThirdPartyResources_Create, ThirdPartyResources_Update,
    ThirdPartyResources_Get, ThirdPartyResources_Delete, ThirdPartyResources_List;
  destruct (checkResource _ _ _ _ _);
  [ reflexivity | cbv zeta; rewrite boundary_eq; reflexivity ].

(** C5. Whatever the inputs and the world, Create, Update, Get, Delete and
    List of the third party resource client either stop at their check of
    the identity or run the dispatcher once, and then with [jsonCodec]: the
    result and the store are those of [create], [get] or [delete] of the
    client run with [jsonCodec] on the operation's URL, and the one call
    recorded carries [jsonCodec].  They only add to the trace, and every
    call they add carries [jsonCodec] as its codec argument. *)
Theorem ThirdPartyResources_dispatch_jsonCodec
  (t : ThirdPartyResources) (ctx : context_Context)
  (resource namespace name : string) (req resp : iface) (w : World) :
  let object_url := urlFor (c t) (apiGroup t) (apiVersion t) namespace resource name in
  let collection_url := urlFor (c t) (apiGroup t) (apiVersion t) namespace resource "" in
  (performs (ThirdPartyResources_Create t ctx resource namespace req resp) w
     (checkResource (apiGroup t) (apiVersion t) resource namespace "not required")
     Some
     (call_create jsonCodec "POST" collection_url req resp)
     (create (c t) ctx jsonCodec "POST" collection_url req resp)
   /\ dispatches_only_with jsonCodec
     (ThirdPartyResources_Create t ctx resource namespace req resp) w
     (checkResource (apiGroup t) (apiVersion t) resource namespace "not required"))
  /\
  (performs (ThirdPartyResources_Update t ctx resource namespace name req resp) w
     (checkResource (apiGroup t) (apiVersion t) resource namespace "not required")
     Some
     (call_create jsonCodec "PUT" object_url req resp)
     (create (c t) ctx jsonCodec "PUT" object_url req resp)
   /\ dispatches_only_with jsonCodec
     (ThirdPartyResources_Update t ctx resource namespace name req resp) w
     (checkResource (apiGroup t) (apiVersion t) resource namespace "not required"))
  /\
  (performs (ThirdPartyResources_Get t ctx resource namespace name resp) w
     (checkResource (apiGroup t) (apiVersion t) resource namespace name)
     Some
     (call_get jsonCodec object_url resp)
     (get (c t) ctx jsonCodec object_url resp)
   /\ dispatches_only_with jsonCodec
     (ThirdPartyResources_Get t ctx resource namespace name resp) w
     (checkResource (apiGroup t) (apiVersion t) resource namespace name))
  /\
  (performs (ThirdPartyResources_Delete t ctx resource namespace name) w
     (checkResource (apiGroup t) (apiVersion t) resource namespace name)
     Some
     (call_delete jsonCodec object_url)
     (delete (c t) ctx jsonCodec object_url)
   /\ dispatches_only_with jsonCodec
     (ThirdPartyResources_Delete t ctx resource namespace name) w
     (checkResource (apiGroup t) (apiVersion t) resource namespace name))
  /\
  (performs (ThirdPartyResources_List t ctx resource namespace resp) w
     (checkResource (apiGroup t) (apiVersion t) resource namespace "name not required")
     Some
     (call_get jsonCodec collection_url resp)
     (get (c t) ctx jsonCodec collection_url resp)
   /\ dispatches_only_with jsonCodec
     (ThirdPartyResources_List t ctx resource namespace resp) w
     (checkResource (apiGroup t) (apiVersion t) resource namespace "name not required")).
Proof.
  intros object_url collection_url. subst object_url collection_url.
  split; [split; [one_performed Client_create_eq
                 | one_json_request Create_calls Client_create_eq]|].
  split; [split; [one_performed Client_create_eq
                 | one_json_request Update_calls Client_create_eq]|].
  split; [split; [one_performed Client_get_eq
                 | one_json_request Get_calls Client_get_eq]|].
  split; [split; [one_performed Client_delete_eq
                 | one_json_request Delete_calls Client_delete_eq]|].
  split; [one_performed Client_get_eq | one_json_request List_calls Client_get_eq].
Qed.

(** ** Failed validation *)

Ltac stop_at_check H :=
  apply returns_untouched_intro;
  unfold ThirdPartyResources_Create, ThirdPartyResources_Update,
    ThirdPartyResources_Get, ThirdPartyResources_Delete,
    ThirdPartyResources_List, ThirdPartyResources_Watch;
  rewrite H; reflexivity.

(** C6. When the check of the resource identity that an operation of the
    third party resource client runs fails with [e], the operation returns
    [e] and the world is the one it started in: no call went through the
    boundary and the store, with the caller's response target in it, was not
    written.  Watch returns a nil watcher next to [e]. *)
Theorem ThirdPartyResources_failed_validation_stops
  (t : ThirdPartyResources) (ctx : context_Context)
  (resource namespace name : string) (req resp : iface) (w : World) (e : error) :
  (checkResource (apiGroup t) (apiVersion t) resource namespace "not required" = Some e ->
     returns_untouched
       (ThirdPartyResources_Create t ctx resource namespace req resp) (Some e) w
     /\ returns_untouched
       (ThirdPartyResources_Update t ctx resource namespace name req resp) (Some e) w)
  /\
  (checkResource (apiGroup t) (apiVersion t) resource namespace name = Some e ->
     returns_untouched
       (ThirdPartyResources_Get t ctx resource namespace name resp) (Some e) w
     /\ returns_untouched
       (ThirdPartyResources_Delete t ctx resource namespace name) (Some e) w)
  /\
  (checkResource (apiGroup t) (apiVersion t) resource namespace "name not required" = Some e ->
     returns_untouched
       (ThirdPartyResources_List t ctx resource namespace resp) (Some e) w
     /\ returns_untouched
       (ThirdPartyResources_Watch t ctx resource namespace) (None, Some e) w).
Proof.
  split; [|split]; intros H; split; stop_at_check H.
Qed.

(** Get and Delete hand [name] to the check: an empty name alone makes
    them fail. *)
Lemma Get_Delete_check_name t ctx resource namespace resp (w : World) :
  apiGroup t <> "" -> apiVersion t <> "" -> resource <> "" -> namespace <> "" ->
  returns_untouched (ThirdPartyResources_Get t ctx resource namespace "" resp)
    (Some (errors_New "no resource name provided")) w
  /\ returns_untouched (ThirdPartyResources_Delete t ctx resource namespace "")
    (Some (errors_New "no resource name provided")) w.
Proof.
  intros Hg Hv Hr Hn.
  assert (H : checkResource (apiGroup t) (apiVersion t) resource namespace ""
              = Some (errors_New "no resource name provided")).
  { unfold checkResource.
    rewrite (eqb_empty_false Hg), (eqb_empty_false Hv), (eqb_empty_false Hr),
      (eqb_empty_false Hn).
    reflexivity. }
  split; stop_at_check H.
Qed.

(** Update hands the literal ["not required"] to the check: with the other
    four components present it sends its PUT request whatever [name] is,
    the empty string included, and returns what the dispatcher returns. *)
Lemma Update_does_not_check_name t ctx resource namespace name req resp (w : World) :
  apiGroup t <> "" -> apiVersion t <> "" -> resource <> "" -> namespace <> "" ->
  let url := urlFor (c t) (apiGroup t) (apiVersion t) namespace resource name in
  calls_since w (snd (ThirdPartyResources_Update t ctx resource namespace name req resp w))
    = [call_create jsonCodec "PUT" url req resp]
  /\ fst (ThirdPartyResources_Update t ctx resource namespace name req resp w)
     = fst (create (c t) ctx jsonCodec "PUT" url req resp (store w)).
Proof.
  intros Hg Hv Hr Hn url.
  assert (H : checkResource (apiGroup t) (apiVersion t) resource namespace "not required"
              = None).
  { apply checkResource_complete; auto. discriminate. }
  split.
  - rewrite Update_calls, H. reflexivity.
  - unfold ThirdPartyResources_Update. rewrite H. simpl.
    rewrite Client_create_eq. reflexivity.
Qed.

(** ** The watch adapters *)

Lemma bind_eq {A B : Type} (m : M A) (k : A -> M B) (w : World) :
  bind m k w = k (fst (m w)) (snd (m w)).
Proof. unfold bind. destruct (m w); reflexivity. Qed.

Lemma calls_since_two (w : World) (k1 k2 : Call) (s : Store) :
  calls_since w {| trace := (trace w ++ [k1]) ++ [k2]; store := s |} = [k1; k2].
Proof. rewrite <- app_assoc. apply calls_since_app. Qed.

(** [APIWatcher.Next] after a successful [next], whole. *)
Lemma APIWatcher_Next_success (a : APIWatcher) (w : World)
  (ev : Event) (u : Unknown) (s' : Store) :
  next (api_watcher a) (store w) = (inr (ev, u), s') ->
  APIWatcher_Next a w =
  (match proto_Unmarshal (Raw u) with
   | inl err => (None, None, Some err)
   | inr resp => (Some ev, Some resp, None)
   end,
   {| trace := (trace w ++ [call_next (api_watcher a)]) ++ [call_Unmarshal (Raw u)];
      store := s' |}).
Proof.
  intro H. unfold APIWatcher_Next.
  rewrite bind_eq, watcher_next_eq, H. simpl.
  unfold Unmarshal, bind, record, ret. simpl.
  destruct (proto_Unmarshal (Raw u)); reflexivity.
Qed.

(** [ThirdPartyResourceWatcher.Next] after a successful [next], whole. *)
Lemma ThirdPartyResourceWatcher_Next_success (b : ThirdPartyResourceWatcher)
  (w : World) (ev : Event) (u : Unknown) (s' : Store) :
  next (tpr_watcher b) (store w) = (inr (ev, u), s') ->
  ThirdPartyResourceWatcher_Next b w =
  ((Some ev, None, None),
   {| trace := (trace w ++ [call_next (tpr_watcher b)]) ++ [call_Println (Raw u)];
      store := s' |}).
Proof.
  intro H. unfold ThirdPartyResourceWatcher_Next.
  rewrite bind_eq, watcher_next_eq, H. reflexivity.
Qed.

(** Either [Next] after a failed [next], whole. *)
Lemma APIWatcher_Next_failure (a : APIWatcher) (w : World) (e : error) (s' : Store) :
  next (api_watcher a) (store w) = (inl e, s') ->
  APIWatcher_Next a w =
  ((None, None, Some e),
   {| trace := trace w ++ [call_next (api_watcher a)]; store := s' |}).
Proof.
  intro H. unfold APIWatcher_Next.
  rewrite bind_eq, watcher_next_eq, H. reflexivity.
Qed.

Lemma ThirdPartyResourceWatcher_Next_failure (b : ThirdPartyResourceWatcher)
  (w : World) (e : error) (s' : Store) :
  next (tpr_watcher b) (store w) = (inl e, s') ->
  ThirdPartyResourceWatcher_Next b w =
  ((None, None, Some e),
   {| trace := trace w ++ [call_next (tpr_watcher b)]; store := s' |}).
Proof.
  intro H. unfold ThirdPartyResourceWatcher_Next.
  rewrite bind_eq, watcher_next_eq, H. reflexivity.
Qed.

(** C3, as it holds. When the watcher's [next] succeeds with event [ev] and
    envelope [u], [APIWatcher.Next] has made two calls, [next] and then the
    binary decoder on [u.Raw]; it returns the decoder's error, as it is,
    with nil event and nil object when the decoder fails, and [ev] with the
    decoded [APIResource] otherwise; the store is the one [next] left.  The
    adapter puts no mark on the error: what it returns is what it returns
    for a stream that fails with [e] exactly when the decoder fails with
    that same [e]. *)
Theorem APIWatcher_Next_decodes_payload (a : APIWatcher) (w : World)
  (ev : Event) (u : Unknown) (s' : Store) :
  next (api_watcher a) (store w) = (inr (ev, u), s') ->
  calls_since w (snd (APIWatcher_Next a w))
    = [call_next (api_watcher a); call_Unmarshal (Raw u)]
  /\ fst (APIWatcher_Next a w)
     = match proto_Unmarshal (Raw u) with
       | inl err => (None, None, Some err)
       | inr resp => (Some ev, Some resp, None)
       end
  /\ store (snd (APIWatcher_Next a w)) = s'
  /\ (forall (a2 : APIWatcher) (w2 : World) (e : error) (s2 : Store),
        next (api_watcher a2) (store w2) = (inl e, s2) ->
        (fst (APIWatcher_Next a w) = fst (APIWatcher_Next a2 w2)
         <-> proto_Unmarshal (Raw u) = inl e)).
Proof.
  intro H. rewrite (APIWatcher_Next_success a w H). simpl.
  split; [apply calls_since_two | split; [reflexivity | split; [reflexivity|]]].
  intros a2 w2 e s2 H2. rewrite (APIWatcher_Next_failure a2 w2 H2). simpl.
  destruct (proto_Unmarshal (Raw u)) as [err|resp]; split; intro E.
  - injection E as ->. reflexivity.
  - injection E as ->. reflexivity.
  - discriminate E.
  - discriminate E.
Qed.

(** [APIWatcher.Next] meets the contract of a typed watch adapter. *)
Lemma APIWatcher_meets_contract (a : APIWatcher) (w : World) :
  decodes_payload (APIWatcher_Next a) (api_watcher a) w.
Proof.
  intros ev u s' H. rewrite (APIWatcher_Next_success a w H). simpl.
  split; [apply calls_since_two|].
  split; intros r Hr; rewrite Hr; eauto.
Qed.

(** C7. When the watcher's [next] succeeds with event [ev] and envelope
    [u], [ThirdPartyResourceWatcher.Next] returns [ev], a nil object and a
    nil error; its calls are [next] and the print of [u.Raw], and none of
    them is a decode. *)
Theorem ThirdPartyResourceWatcher_Next_no_decode (b : ThirdPartyResourceWatcher)
  (w : World) (ev : Event) (u : Unknown) (s' : Store) :
  next (tpr_watcher b) (store w) = (inr (ev, u), s') ->
  fst (ThirdPartyResourceWatcher_Next b w) = (Some ev, None, None)
  /\ calls_since w (snd (ThirdPartyResourceWatcher_Next b w))
     = [call_next (tpr_watcher b); call_Println (Raw u)]
  /\ existsb is_decode (calls_since w (snd (ThirdPartyResourceWatcher_Next b w))) = false
  /\ store (snd (ThirdPartyResourceWatcher_Next b w)) = s'.
Proof.
  intro H. rewrite (ThirdPartyResourceWatcher_Next_success b w H). simpl.
  rewrite calls_since_two. repeat split.
Qed.

(** C8. When the watcher's [next] fails with [e], [Next] of either adapter
    returns nil, nil and [e] itself; [next] is the only call made, so no
    decode is tried. *)
Theorem typed_adapters_return_stream_error
  (a : APIWatcher) (b : ThirdPartyResourceWatcher) (w : World)
  (e : error) (s' : Store) :
  (next (api_watcher a) (store w) = (inl e, s') ->
     fst (APIWatcher_Next a w) = (None, None, Some e)
     /\ calls_since w (snd (APIWatcher_Next a w)) = [call_next (api_watcher a)])
  /\
  (next (tpr_watcher b) (store w) = (inl e, s') ->
     fst (ThirdPartyResourceWatcher_Next b w) = (None, None, Some e)
     /\ calls_since w (snd (ThirdPartyResourceWatcher_Next b w))
        = [call_next (tpr_watcher b)]).
Proof.
  split; intro H.
  - rewrite (APIWatcher_Next_failure a w H). simpl.
    split; [reflexivity | apply calls_since_app].
  - rewrite (ThirdPartyResourceWatcher_Next_failure b w H). simpl.
    split; [reflexivity | apply calls_since_app].
Qed.

(** C9. [Close] of either adapter is the wrapped watcher's [Close]: the
    same computation, hence one call of [Close] on the wrapped watcher, its
    result returned as it is, and the store it leaves. *)
Theorem typed_adapters_Close_delegates
  (a : APIWatcher) (b : ThirdPartyResourceWatcher) (w : World) :
  (APIWatcher_Close a = watcher_Close (api_watcher a)
   /\ fst (APIWatcher_Close a w) = fst (Close (api_watcher a) (store w))
   /\ calls_since w (snd (APIWatcher_Close a w)) = [call_Close (api_watcher a)]
   /\ store (snd (APIWatcher_Close a w)) = snd (Close (api_watcher a) (store w)))
  /\
  (ThirdPartyResourceWatcher_Close b = watcher_Close (tpr_watcher b)
   /\ fst (ThirdPartyResourceWatcher_Close b w) = fst (Close (tpr_watcher b) (store w))
   /\ calls_since w (snd (ThirdPartyResourceWatcher_Close b w))
      = [call_Close (tpr_watcher b)]
   /\ store (snd (ThirdPartyResourceWatcher_Close b w))
      = snd (Close (tpr_watcher b) (store w))).
Proof.
  unfold APIWatcher_Close, ThirdPartyResourceWatcher_Close.
  rewrite !watcher_Close_eq. simpl.
  repeat split; apply calls_since_app.
Qed.

(** ** The discovery client *)

Lemma pointer_or_error (err : option error) (v : loc) (w : World) :
  match err with
  | Some e => ret (None, Some e)
  | None => ret (Some v, None)
  end w
  = (match err with
     | Some e => (None, Some e)
     | None => (Some v, None)
     end, w).
Proof. destruct err; reflexivity. Qed.

(** The shape shared by the four requests of the discovery client: a fresh
    response target, one GET into it, and the target or the error back. *)
Lemma fresh_target_get (v0 : Value) (c0 : Client) (ctx : context_Context)
  (codec : Codec) (url : string) (w : World) :
  let target := length (heap (store w)) in
  let s1 := {| heap := heap (store w) ++ [v0]; net := net (store w) |} in
  bind (new v0) (fun v =>
    bind (Client_get c0 ctx codec url (Some v)) (fun err =>
      match err with
      | Some e => ret (None, Some e)
      | None => ret (Some v, None)
      end)) w
  = (match fst (get c0 ctx codec url (Some target) s1) with
     | Some e => (None, Some e)
     | None => (Some target, None)
     end,
     {| trace := trace w ++ [call_get codec url (Some target)];
        store := snd (get c0 ctx codec url (Some target) s1) |}).
Proof.
  intros target s1. subst target s1. rewrite bind_eq. simpl.
  rewrite bind_eq, Client_get_eq. simpl.
  apply pointer_or_error.
Qed.

Lemma fresh_target_holds_zero (zero : Value) (w : World) :
  nth_error (heap (store w) ++ [zero]) (length (heap (store w))) = Some zero
  /\ forall l, l < length (heap (store w)) ->
       nth_error (heap (store w) ++ [zero]) l = nth_error (heap (store w)) l.
Proof.
  split.
  - rewrite nth_error_app2, Nat.sub_diag by apply Nat.le_refl. reflexivity.
  - intros l Hl. now apply nth_error_app1.
Qed.

Ltac one_fetch :=
  unfold fetches_into_fresh; cbv zeta;
  unfold Discovery_Version, Discovery_APIGroups, Discovery_APIGroup,
    Discovery_APIResources;
  rewrite fresh_target_get; simpl;
  split; [apply fresh_target_holds_zero |
  split; [apply fresh_target_holds_zero | split; reflexivity]].

Ltac one_get :=
  unfold Discovery_Version, Discovery_APIGroups, Discovery_APIGroup,
    Discovery_APIResources;
  rewrite fresh_target_get; simpl; apply calls_since_app.

(** C4, as it holds. Each discovery request runs the dispatcher's [get]
    once, into a fresh response target, and returns what that run gives.
    APIGroups, APIGroup and APIResources run it with [pbCodec]; Version runs
    it with [jsonCodec], into a zero [Version] struct.  The one call
    recorded carries the same codec, URL and target. *)
Theorem Discovery_codecs (d : Discovery) (ctx : context_Context)
  (name groupName groupVersion : string) (w : World) :
  let target := Some (length (heap (store w))) in
  (fetches_into_fresh (V_Version zero_Version) (client d) ctx jsonCodec
     (urlForPath (client d) "version") (Discovery_Version d ctx) w
   /\ calls_since w (snd (Discovery_Version d ctx w))
      = [call_get jsonCodec (urlForPath (client d) "version") target])
  /\
  (fetches_into_fresh (V_APIGroupList zero_APIGroupList) (client d) ctx pbCodec
     (urlForPath (client d) "apis") (Discovery_APIGroups d ctx) w
   /\ calls_since w (snd (Discovery_APIGroups d ctx w))
      = [call_get pbCodec (urlForPath (client d) "apis") target])
  /\
  (fetches_into_fresh (V_APIGroup zero_APIGroup) (client d) ctx pbCodec
     (urlForPath (client d) (path_Join ["apis"; name]))
     (Discovery_APIGroup d ctx name) w
   /\ calls_since w (snd (Discovery_APIGroup d ctx name w))
      = [call_get pbCodec (urlForPath (client d) (path_Join ["apis"; name])) target])
  /\
  (fetches_into_fresh (V_APIResourceList zero_APIResourceList) (client d) ctx pbCodec
     (urlForPath (client d) (path_Join ["apis"; groupName; groupVersion]))
     (Discovery_APIResources d ctx groupName groupVersion) w
   /\ calls_since w (snd (Discovery_APIResources d ctx groupName groupVersion w))
      = [call_get pbCodec
           (urlForPath (client d) (path_Join ["apis"; groupName; groupVersion]))
           target]).
Proof.
  intro target. subst target.
  split; [split; [one_fetch | one_get]|].
  split; [split; [one_fetch | one_get]|].
  split; split; (one_fetch || one_get).
Qed.

(** C10. For every group name and group version, the empty strings
    included, [Discovery.APIWatch] makes one call, the opening of the watch
    on the path joined from ["apis"], the name and the version; it returns
    the error of that call with a nil adapter when it fails and the adapter
    over the new watcher otherwise.  No error has another origin. *)
Theorem Discovery_APIWatch_no_validation (d : Discovery) (ctx : context_Context)
  (groupName groupVersion : string) (w : World) :
  let url := urlForPath (client d) (path_Join ["apis"; groupName; groupVersion]) in
  calls_since w (snd (Discovery_APIWatch d ctx groupName groupVersion w))
    = [call_watch url]
  /\ fst (Discovery_APIWatch d ctx groupName groupVersion w)
     = match fst (watch (client d) ctx url (store w)) with
       | inl err => (None, Some err)
       | inr watcher0 => (Some {| api_watcher := watcher0 |}, None)
       end
  /\ store (snd (Discovery_APIWatch d ctx groupName groupVersion w))
     = snd (watch (client d) ctx url (store w)).
Proof.
  intro url. unfold Discovery_APIWatch. fold url.
  rewrite bind_eq, Client_watch_eq. simpl.
  destruct (fst (watch (client d) ctx url (store w)));
    simpl; (split; [apply calls_since_app | split; reflexivity]).
Qed.

End Properties.

(** * The theorems on the concrete server *)

(** C6 on a request without a resource: all six operations stop at the
    check. *)
Lemma ThirdPartyResources_failed_validation_stops_witness :
  (returns_untouched
     (ThirdPartyResources_Create (X := demo_Collaborators) demo_tprs tt "" "default"
        None None)
     (Some (errors_New "no resource version provided")) (demo_world [])
   /\ returns_untouched
     (ThirdPartyResources_Update (X := demo_Collaborators) demo_tprs tt "" "default" "foo"
        None None)
     (Some (errors_New "no resource version provided")) (demo_world []))
  /\
  (returns_untouched
     (ThirdPartyResources_Get (X := demo_Collaborators) demo_tprs tt "" "default" "foo"
        None)
     (Some (errors_New "no resource version provided")) (demo_world [])
   /\ returns_untouched
     (ThirdPartyResources_Delete (X := demo_Collaborators) demo_tprs tt "" "default" "foo")
     (Some (errors_New "no resource version provided")) (demo_world []))
  /\
  (returns_untouched
     (ThirdPartyResources_List (X := demo_Collaborators) demo_tprs tt "" "default" None)
     (Some (errors_New "no resource version provided")) (demo_world [])
   /\ returns_untouched
     (ThirdPartyResources_Watch (X := demo_Collaborators) demo_tprs tt "" "default")
     (None, Some (errors_New "no resource version provided")) (demo_world [])).
Proof.
  destruct (@ThirdPartyResources_failed_validation_stops
              demo_Schema demo_Collaborators demo_tprs tt "" "default" "foo"
              None None (demo_world []) (errors_New "no resource version provided"))
    as [H1 [H2 H3]].
  split; [exact (H1 eq_refl) | split; [exact (H2 eq_refl) | exact (H3 eq_refl)]].
Defined.

(** C2 at its failing input: Update with an empty name, the other four
    components present.  No validation error comes back: the PUT request
    goes to the dispatcher, on the URL of the collection, and Update returns
    the dispatcher's nil. *)
Lemma Update_empty_name_is_dispatched :
  ThirdPartyResources_Update (X := demo_Collaborators) demo_tprs tt "metrics" "default" ""
    (Some 0) (Some 0) (demo_world [])
  = (None,
     @Build_World demo_Schema
       [call_create jsonCodec "PUT"
          "https://k8s.example.com/apis/metrics.example.com/v1/namespaces/default/metrics"
          (Some 0) (Some 0)]
       (store (demo_world []))).
Proof. reflexivity. Qed.

(** Get and Delete at the same input return the validation error. *)
Lemma Get_Delete_empty_name_rejected :
  fst (ThirdPartyResources_Get (X := demo_Collaborators) demo_tprs tt "metrics" "default" ""
         (Some 0) (demo_world []))
  = Some (errors_New "no resource name provided")
  /\ fst (ThirdPartyResources_Delete (X := demo_Collaborators) demo_tprs tt "metrics"
            "default" "" (demo_world []))
     = Some (errors_New "no resource name provided").
Proof. split; reflexivity. Qed.

(** C3 fails twice.  For the third party adapter: on a stream whose next
    frame decodes, [ThirdPartyResourceWatcher.Next] does not meet the
    contract of a typed watch adapter.  For the discovery adapter: on the
    second server a stream cut short and a payload cut short both make
    [APIWatcher.Next] return nil, nil and [io.ErrUnexpectedEOF], so a decode
    failure is not kept apart from a stream failure. *)
Lemma typed_adapters_contract_counterexample :
  ~ decodes_payload (X := demo_Collaborators)
      (ThirdPartyResourceWatcher_Next (X := demo_Collaborators) demo_tpr_watcher)
      (tpr_watcher demo_tpr_watcher) (demo_world demo_frames)
  /\ ~ decode_failure_distinct (X := short_Collaborators)
        (APIWatcher_Next (X := short_Collaborators) demo_api_watcher)
        (api_watcher demo_api_watcher).
Proof.
  split.
  - intro H.
    destruct (H "ADDED" {| Raw := [Byte.x01] |}
                (@Build_Store demo_Schema [] []) eq_refl) as [Hcalls _].
    vm_compute in Hcalls. discriminate Hcalls.
  - intro H.
    apply (H (demo_world []) (demo_world [("ADDED", [])])
             io_ErrUnexpectedEOF io_ErrUnexpectedEOF "ADDED" {| Raw := [] |}
             (@Build_Store demo_Schema [] []) (@Build_Store demo_Schema [] [])
             eq_refl eq_refl eq_refl).
    reflexivity.
Qed.

(** C3, as it holds, on the same stream. *)
Lemma APIWatcher_Next_decodes_payload_witness :
  calls_since (demo_world demo_frames)
    (snd (APIWatcher_Next (X := demo_Collaborators) demo_api_watcher
            (demo_world demo_frames)))
    = [call_next (S := demo_Schema) 0; call_Unmarshal [Byte.x01]]
  /\ fst (APIWatcher_Next (X := demo_Collaborators) demo_api_watcher
            (demo_world demo_frames))
     = match demo_Unmarshal [Byte.x01] with
       | inl err => (None, None, Some err)
       | inr resp => (Some "ADDED", Some resp, None)
       end
  /\ store (snd (APIWatcher_Next (X := demo_Collaborators) demo_api_watcher
                   (demo_world demo_frames)))
     = @Build_Store demo_Schema [] [].
Proof.
  destruct (@APIWatcher_Next_decodes_payload demo_Schema demo_Collaborators
              demo_api_watcher (demo_world demo_frames)
              "ADDED" {| Raw := [Byte.x01] |} (@Build_Store demo_Schema [] []) eq_refl)
    as [Hcalls [Hresult [Hstore _]]].
  split; [exact Hcalls | split; [exact Hresult | exact Hstore]].
Defined.

(** C4 fails for Version: its one call to the dispatcher does not carry
    [pbCodec]. *)
Lemma Discovery_Version_not_pbCodec :
  ~ dispatched_with pbCodec
      (calls_since (demo_world [])
         (snd (Discovery_Version (X := demo_Collaborators) demo_discovery tt
                 (demo_world [])))).
Proof.
  intro H. vm_compute in H. inversion H as [|k ks Hk _]. discriminate Hk.
Qed.

(** C7 on a stream holding one frame. *)
Lemma ThirdPartyResourceWatcher_Next_no_decode_witness :
  fst (ThirdPartyResourceWatcher_Next (X := demo_Collaborators) demo_tpr_watcher
         (demo_world demo_frames))
  = (Some "ADDED", None, None)
  /\ calls_since (demo_world demo_frames)
       (snd (ThirdPartyResourceWatcher_Next (X := demo_Collaborators) demo_tpr_watcher
               (demo_world demo_frames)))
     = [call_next (S := demo_Schema) 0; call_Println [Byte.x01]]
  /\ existsb is_decode
       (calls_since (demo_world demo_frames)
          (snd (ThirdPartyResourceWatcher_Next (X := demo_Collaborators) demo_tpr_watcher
                  (demo_world demo_frames))))
     = false
  /\ store (snd (ThirdPartyResourceWatcher_Next (X := demo_Collaborators)
                   demo_tpr_watcher (demo_world demo_frames)))
     = @Build_Store demo_Schema [] [].
Proof.
  exact (@ThirdPartyResourceWatcher_Next_no_decode demo_Schema demo_Collaborators
           demo_tpr_watcher (demo_world demo_frames)
           "ADDED" {| Raw := [Byte.x01] |} (@Build_Store demo_Schema [] []) eq_refl).
Defined.

(** C8 on a stream at its end. *)
Lemma typed_adapters_return_stream_error_witness :
  (fst (APIWatcher_Next (X := demo_Collaborators) demo_api_watcher (demo_world []))
   = (None, None, Some (foreign_error "io.EOF" 0))
   /\ calls_since (demo_world [])
        (snd (APIWatcher_Next (X := demo_Collaborators) demo_api_watcher (demo_world [])))
      = [call_next (S := demo_Schema) 0])
  /\
  (fst (ThirdPartyResourceWatcher_Next (X := demo_Collaborators) demo_tpr_watcher
          (demo_world []))
   = (None, None, Some (foreign_error "io.EOF" 0))
   /\ calls_since (demo_world [])
        (snd (ThirdPartyResourceWatcher_Next (X := demo_Collaborators) demo_tpr_watcher
                (demo_world [])))
      = [call_next (S := demo_Schema) 0]).
Proof.
  destruct (@typed_adapters_return_stream_error demo_Schema demo_Collaborators
              demo_api_watcher demo_tpr_watcher (demo_world [])
              (foreign_error "io.EOF" 0) (@Build_Store demo_Schema [] []))
    as [Ha Hb].
  split; [exact (Ha eq_refl) | exact (Hb eq_refl)].
Defined.

(** * Further properties of the two files *)

(** ** checkResource on any five strings *)

(** X1. [checkResource] returns nil exactly when none of its five arguments is
    empty. *)
Theorem checkResource_nil_iff_complete (g v r ns n : string) :
  checkResource g v r ns n = None
  <-> g <> "" /\ v <> "" /\ r <> "" /\ ns <> "" /\ n <> "".
Proof.
  unfold checkResource.
  destruct (String.eqb_spec g ""); [split; [discriminate | tauto]|].
  destruct (String.eqb_spec v ""); [split; [discriminate | tauto]|].
  destruct (String.eqb_spec r ""); [split; [discriminate | tauto]|].
  destruct (String.eqb_spec ns ""); [split; [discriminate | tauto]|].
  destruct (String.eqb_spec n ""); [split; [discriminate | tauto]|].
  tauto.
Qed.

Lemma checkResource_nil_iff_complete_witness :
  checkResource "metrics.example.com" "v1" "metrics" "default" "foo" = None.
Proof.
  apply (proj2 (checkResource_nil_iff_complete
                  "metrics.example.com" "v1" "metrics" "default" "foo")).
  repeat split; discriminate.
Defined.

(** X2. With any number of empty arguments, the error of [checkResource]
    reports the first empty one in the order of its tests: a field is the
    reported one exactly when it is empty and every field tested before it
    is not. *)
Theorem checkResource_reports_first_empty (f : Field) (g v r ns n : string) :
  (exists e, checkResource g v r ns n = Some e /\ reported_field e = Some f)
  <->
  (field_value f g v r ns n = ""
   /\ forall f', Field_index f' < Field_index f -> field_value f' g v r ns n <> "").
Proof.
  unfold checkResource.
  destruct (String.eqb_spec g "") as [Eg|Ng];
    [|destruct (String.eqb_spec v "") as [Ev|Nv];
      [|destruct (String.eqb_spec r "") as [Er|Nr];
        [|destruct (String.eqb_spec ns "") as [Ens|Nns];
          [|destruct (String.eqb_spec n "") as [En|Nn]]]]];
    (split;
     [ intros [e [He Hf]]; try discriminate He;
       injection He as <-; destruct f; try discriminate Hf;
       (split; [assumption | intros f' Hlt; destruct f'; simpl in Hlt |- *;
                             (assumption || lia)])
     | intros [Hf Hlt];
       destruct f; simpl in Hf;
       first [ eexists; split; reflexivity
             | exfalso;
               first [ exact (Hlt F_apiGroup ltac:(simpl; lia) Eg)
                     | exact (Hlt F_apiVersion ltac:(simpl; lia) Ev)
                     | exact (Hlt F_resource ltac:(simpl; lia) Er)
                     | exact (Hlt F_namespace ltac:(simpl; lia) Ens)
                     | exact (Hlt F_name ltac:(simpl; lia) En)
                     | contradiction ] ] ]).
Qed.

Lemma checkResource_reports_first_empty_witness :
  exists e, checkResource "metrics.example.com" "" "metrics" "" "" = Some e
            /\ reported_field e = Some F_apiVersion.
Proof.
  apply (proj2 (checkResource_reports_first_empty F_apiVersion
                  "metrics.example.com" "" "metrics" "" "")).
  split; [reflexivity|].
  intros f' Hlt. destruct f'; simpl in Hlt |- *; (discriminate || lia).
Defined.

Section Requests.

Context {S : Schema} {X : Collaborators}.

(** ** Requests of the third party resource client that pass the check *)

(** X3. On a complete identity Get, Update and Delete each make one request on
    the URL of the object, [urlFor] of group, version, namespace, resource
    and name in that order: a GET, a PUT carrying [req], a DELETE.  Each
    returns the dispatcher's error as it is and leaves the store as the
    dispatcher left it. *)
Theorem single_object_requests (t : ThirdPartyResources) (ctx : context_Context)
  (resource namespace name : string) (req resp : iface) (w : World) :
  apiGroup t <> "" -> apiVersion t <> "" -> resource <> "" -> namespace <> "" ->
  name <> "" ->
  let url := urlFor (c t) (apiGroup t) (apiVersion t) namespace resource name in
  ThirdPartyResources_Get t ctx resource namespace name resp w
    = (fst (get (c t) ctx jsonCodec url resp (store w)),
       {| trace := trace w ++ [call_get jsonCodec url resp];
          store := snd (get (c t) ctx jsonCodec url resp (store w)) |})
  /\ ThirdPartyResources_Update t ctx resource namespace name req resp w
    = (fst (create (c t) ctx jsonCodec "PUT" url req resp (store w)),
       {| trace := trace w ++ [call_create jsonCodec "PUT" url req resp];
          store := snd (create (c t) ctx jsonCodec "PUT" url req resp (store w)) |})
  /\ ThirdPartyResources_Delete t ctx resource namespace name w
    = (fst (delete (c t) ctx jsonCodec url (store w)),
       {| trace := trace w ++ [call_delete jsonCodec url];
          store := snd (delete (c t) ctx jsonCodec url (store w)) |}).
Proof.
  intros Hg Hv Hr Hns Hn url.
  unfold ThirdPartyResources_Get, ThirdPartyResources_Update,
    ThirdPartyResources_Delete.
  rewrite (checkResource_complete Hg Hv Hr Hns Hn).
  rewrite (checkResource_complete (n := "not required") Hg Hv Hr Hns ltac:(discriminate)).
  cbv zeta. fold url.
  rewrite Client_get_eq, Client_create_eq, Client_delete_eq.
  repeat split.
Qed.

(** X4. With group, version, resource and namespace present, Create and List
    each make one request on the URL of the collection, [urlFor] with the
    empty string for the name: a POST carrying [req], a GET.  Neither takes
    a name.  Each returns the dispatcher's error as it is and leaves the
    store as the dispatcher left it. *)
Theorem collection_requests (t : ThirdPartyResources) (ctx : context_Context)
  (resource namespace : string) (req resp : iface) (w : World) :
  apiGroup t <> "" -> apiVersion t <> "" -> resource <> "" -> namespace <> "" ->
  let url := urlFor (c t) (apiGroup t) (apiVersion t) namespace resource "" in
  ThirdPartyResources_Create t ctx resource namespace req resp w
    = (fst (create (c t) ctx jsonCodec "POST" url req resp (store w)),
       {| trace := trace w ++ [call_create jsonCodec "POST" url req resp];
          store := snd (create (c t) ctx jsonCodec "POST" url req resp (store w)) |})
  /\ ThirdPartyResources_List t ctx resource namespace resp w
    = (fst (get (c t) ctx jsonCodec url resp (store w)),
       {| trace := trace w ++ [call_get jsonCodec url resp];
          store := snd (get (c t) ctx jsonCodec url resp (store w)) |}).
Proof.
  intros Hg Hv Hr Hns url.
  unfold ThirdPartyResources_Create, ThirdPartyResources_List.
  rewrite (checkResource_complete (n := "not required") Hg Hv Hr Hns ltac:(discriminate)).
  rewrite (checkResource_complete (n := "name not required") Hg Hv Hr Hns ltac:(discriminate)).
  cbv zeta. fold url.
  rewrite Client_get_eq, Client_create_eq.
  repeat split.
Qed.

(** X5. Watch returns an adapter and a nil error exactly when its check of the
    identity passes and the dispatcher opens the watch on the URL of the
    collection; the adapter then wraps the watcher the dispatcher returned.
    In every other case it returns a nil adapter and an error.  No call of
    Watch carries a codec. *)
Theorem Watch_returns_opened_watcher_or_error (t : ThirdPartyResources)
  (ctx : context_Context) (resource namespace : string) (w : World) :
  let url := urlFor (c t) (apiGroup t) (apiVersion t) namespace resource "" in
  (forall a : ThirdPartyResourceWatcher,
      fst (ThirdPartyResources_Watch t ctx resource namespace w) = (Some a, None)
      <-> checkResource (apiGroup t) (apiVersion t) resource namespace
            "name not required" = None
          /\ fst (watch (c t) ctx url (store w)) = inr (tpr_watcher a))
  /\ ((exists a, fst (ThirdPartyResources_Watch t ctx resource namespace w)
                 = (Some a, None))
      \/ (exists e, fst (ThirdPartyResources_Watch t ctx resource namespace w)
                    = (None, Some e)))
  /\ Forall (fun k => codec_of k = None)
       (calls_since w (snd (ThirdPartyResources_Watch t ctx resource namespace w))).
Proof.
  intro url. unfold ThirdPartyResources_Watch. fold url.
  destruct (checkResource _ _ _ _ _) as [e|]; simpl.
  - split; [|split].
    + intro a. split; [discriminate | intros [H _]; discriminate H].
    + right. eauto.
    + rewrite calls_since_same. constructor.
  - rewrite bind_eq, Client_watch_eq. simpl.
    destruct (fst (watch (c t) ctx url (store w))) as [e|wt]; simpl;
      (split; [|split; [|rewrite calls_since_app; repeat constructor]]).
    + intro a. split; [discriminate | intros [_ H]; discriminate H].
    + right. eauto.
    + intro a. split.
      * intro H. injection H as <-. auto.
      * intros [_ H]. injection H as ->. destruct a; reflexivity.
    + left. eauto.
Qed.

(** X6. A client made by [ThirdPartyResources] with an empty API group rejects
    every operation, whatever the other arguments: each returns the error
    ["no api group provided"] and leaves the world untouched. *)
Theorem empty_apiGroup_rejects_everything (c0 : Client) (apiVersion0 : string)
  (ctx : context_Context) (resource namespace name : string) (req resp : iface)
  (w : World) :
  let t := Client_ThirdPartyResources c0 "" apiVersion0 in
  let e := errors_New "no api group provided" in
  returns_untouched (ThirdPartyResources_Create t ctx resource namespace req resp)
    (Some e) w
  /\ returns_untouched (ThirdPartyResources_Update t ctx resource namespace name req resp)
    (Some e) w
  /\ returns_untouched (ThirdPartyResources_Get t ctx resource namespace name resp)
    (Some e) w
  /\ returns_untouched (ThirdPartyResources_Delete t ctx resource namespace name)
    (Some e) w
  /\ returns_untouched (ThirdPartyResources_List t ctx resource namespace resp)
    (Some e) w
  /\ returns_untouched (ThirdPartyResources_Watch t ctx resource namespace)
    (None, Some e) w.
Proof.
  intros t e. repeat split.
Qed.

(** ** Requests of the discovery client *)

Ltac fetch :=
  unfold fetches_into_fresh; cbv zeta;
  unfold Discovery_Version, Discovery_APIGroups, Discovery_APIGroup,
    Discovery_APIResources;
  rewrite fresh_target_get; simpl;
  split; [apply fresh_target_holds_zero |
  split; [apply fresh_target_holds_zero | split; reflexivity]].

(** X7. Version, APIGroups, APIGroup and APIResources check none of their
    arguments.  Each hands the dispatcher a fresh object holding the zero
    value of its result type, without moving the objects already on the
    heap; it returns the pointer to that object when the dispatcher returns
    nil, and a nil pointer with the dispatcher's error, as it is, otherwise. *)
Theorem Discovery_returns_target_or_error (d : Discovery) (ctx : context_Context)
  (name groupName groupVersion : string) (w : World) :
  fetches_into_fresh (V_Version zero_Version) (client d) ctx jsonCodec
    (urlForPath (client d) "version") (Discovery_Version d ctx) w
  /\ fetches_into_fresh (V_APIGroupList zero_APIGroupList) (client d) ctx pbCodec
    (urlForPath (client d) "apis") (Discovery_APIGroups d ctx) w
  /\ fetches_into_fresh (V_APIGroup zero_APIGroup) (client d) ctx pbCodec
    (urlForPath (client d) (path_Join ["apis"; name])) (Discovery_APIGroup d ctx name) w
  /\ fetches_into_fresh (V_APIResourceList zero_APIResourceList) (client d) ctx pbCodec
    (urlForPath (client d) (path_Join ["apis"; groupName; groupVersion]))
    (Discovery_APIResources d ctx groupName groupVersion) w.
Proof.
  split; [fetch | split; [fetch | split; fetch]].
Qed.

(** X8. APIWatch opens its watch on the URL that APIResources reads, for the
    same group name and group version: APIResources is the dispatcher's
    [get] run with [pbCodec] on that URL, and APIWatch is the dispatcher's
    [watch] run on it, result, call and store. *)
Theorem APIWatch_watches_what_APIResources_lists (d : Discovery)
  (ctx : context_Context) (groupName groupVersion : string) (w w' : World) :
  let url := urlForPath (client d) (path_Join ["apis"; groupName; groupVersion]) in
  (fetches_into_fresh (V_APIResourceList zero_APIResourceList) (client d) ctx pbCodec
     url (Discovery_APIResources d ctx groupName groupVersion) w
   /\ calls_since w (snd (Discovery_APIResources d ctx groupName groupVersion w))
      = [call_get pbCodec url (Some (length (heap (store w))))])
  /\ Discovery_APIWatch d ctx groupName groupVersion w'
     = (match fst (watch (client d) ctx url (store w')) with
        | inl err => (None, Some err)
        | inr watcher0 => (Some {| api_watcher := watcher0 |}, None)
        end,
        {| trace := trace w' ++ [call_watch url];
           store := snd (watch (client d) ctx url (store w')) |}).
Proof.
  intro url. split; [split|].
  - unfold fetches_into_fresh, Discovery_APIResources. cbv zeta. fold url.
    rewrite fresh_target_get. simpl.
    split; [apply fresh_target_holds_zero |
    split; [apply fresh_target_holds_zero | split; reflexivity]].
  - unfold Discovery_APIResources. fold url. rewrite fresh_target_get. simpl.
    apply calls_since_app.
  - unfold Discovery_APIWatch. fold url. rewrite bind_eq, Client_watch_eq. simpl.
    destruct (fst (watch (client d) ctx url (store w'))); reflexivity.
Qed.

(** ** The adapters on any stream *)

(** X9. [APIWatcher.Next] returns all or nothing: an event, an object and a nil
    error, or a nil event, a nil object and an error.  The error is the
    watcher's when [next] failed and the decoder's otherwise. *)
Theorem APIWatcher_Next_all_or_nothing (a : APIWatcher) (w : World) :
  (exists ev resp u,
      fst (APIWatcher_Next a w) = (Some ev, Some resp, None)
      /\ fst (next (api_watcher a) (store w)) = inr (ev, u)
      /\ proto_Unmarshal (Raw u) = inr resp)
  \/ (exists e,
      fst (APIWatcher_Next a w) = (None, None, Some e)
      /\ (fst (next (api_watcher a) (store w)) = inl e
          \/ exists ev u, fst (next (api_watcher a) (store w)) = inr (ev, u)
                          /\ proto_Unmarshal (Raw u) = inl e)).
Proof.
  destruct (next (api_watcher a) (store w)) as [[e|[ev u]] s'] eqn:H.
  - right. exists e. rewrite (APIWatcher_Next_failure a w H). auto.
  - rewrite (APIWatcher_Next_success a w H). simpl.
    destruct (proto_Unmarshal (Raw u)) as [e|resp] eqn:D.
    + right. exists e. split; [reflexivity|]. right. eauto.
    + left. exists ev, resp, u. auto.
Qed.

(** X10. On any stream [ThirdPartyResourceWatcher.Next] returns a nil object and
    calls no decoder; it returns an event exactly when it returns a nil
    error, and its error is the one of the watcher's [next]. *)
Theorem ThirdPartyResourceWatcher_Next_object_always_nil
  (b : ThirdPartyResourceWatcher) (w : World) :
  snd (fst (fst (ThirdPartyResourceWatcher_Next b w))) = None
  /\ existsb is_decode (calls_since w (snd (ThirdPartyResourceWatcher_Next b w))) = false
  /\ ((exists ev u, fst (next (tpr_watcher b) (store w)) = inr (ev, u)
                    /\ fst (ThirdPartyResourceWatcher_Next b w) = (Some ev, None, None))
      \/ (exists e, fst (next (tpr_watcher b) (store w)) = inl e
                    /\ fst (ThirdPartyResourceWatcher_Next b w) = (None, None, Some e))).
Proof.
  destruct (next (tpr_watcher b) (store w)) as [[e|[ev u]] s'] eqn:H.
  - rewrite (ThirdPartyResourceWatcher_Next_failure b w H). simpl.
    rewrite calls_since_app. repeat split. right. eauto.
  - rewrite (ThirdPartyResourceWatcher_Next_success b w H). simpl.
    rewrite calls_since_two. repeat split. left. eauto.
Qed.

(** ** Opening, then closing *)

(** X11. When the check passes and the dispatcher opens a watch [wt], the adapter
    that Watch returns closes [wt]: Watch followed by Close of its adapter
    makes two calls, the opening on the URL of the collection and [Close] of
    [wt], and returns what [Close] of [wt] returns on the store the opening
    left. *)
Theorem Watch_then_Close_closes_opened (t : ThirdPartyResources)
  (ctx : context_Context) (resource namespace : string) (w : World)
  (wt : watcher) (s1 : Store) :
  apiGroup t <> "" -> apiVersion t <> "" -> resource <> "" -> namespace <> "" ->
  let url := urlFor (c t) (apiGroup t) (apiVersion t) namespace resource "" in
  watch (c t) ctx url (store w) = (inr wt, s1) ->
  exists b : ThirdPartyResourceWatcher,
    ThirdPartyResources_Watch t ctx resource namespace w
      = ((Some b, None), {| trace := trace w ++ [call_watch url]; store := s1 |})
    /\ tpr_watcher b = wt
    /\ ThirdPartyResourceWatcher_Close b
         {| trace := trace w ++ [call_watch url]; store := s1 |}
       = (fst (Close wt s1),
          {| trace := trace w ++ [call_watch url; call_Close wt];
             store := snd (Close wt s1) |}).
Proof.
  intros Hg Hv Hr Hns url H.
  exists {| tpr_watcher := wt |}.
  split; [|split; [reflexivity|]].
  - unfold ThirdPartyResources_Watch.
    rewrite (checkResource_complete (n := "name not required") Hg Hv Hr Hns
               ltac:(discriminate)).
    cbv zeta. fold url. rewrite bind_eq, Client_watch_eq, H. reflexivity.
  - unfold ThirdPartyResourceWatcher_Close. rewrite watcher_Close_eq. simpl.
    rewrite <- app_assoc. reflexivity.
Qed.

(** X12. The same for the discovery client, which has no check: whenever the
    dispatcher opens a watch [wt], APIWatch followed by Close of its adapter
    opens on the joined path and closes [wt]. *)
Theorem APIWatch_then_Close_closes_opened (d : Discovery) (ctx : context_Context)
  (groupName groupVersion : string) (w : World) (wt : watcher) (s1 : Store) :
  let url := urlForPath (client d) (path_Join ["apis"; groupName; groupVersion]) in
  watch (client d) ctx url (store w) = (inr wt, s1) ->
  exists a : APIWatcher,
    Discovery_APIWatch d ctx groupName groupVersion w
      = ((Some a, None), {| trace := trace w ++ [call_watch url]; store := s1 |})
    /\ api_watcher a = wt
    /\ APIWatcher_Close a {| trace := trace w ++ [call_watch url]; store := s1 |}
       = (fst (Close wt s1),
          {| trace := trace w ++ [call_watch url; call_Close wt];
             store := snd (Close wt s1) |}).
Proof.
  intros url H.
  exists {| api_watcher := wt |}.
  split; [|split; [reflexivity|]].
  - unfold Discovery_APIWatch. fold url.
    rewrite bind_eq, Client_watch_eq, H. reflexivity.
  - unfold APIWatcher_Close. rewrite watcher_Close_eq. simpl.
    rewrite <- app_assoc. reflexivity.
Qed.

End Requests.

(** * The further properties on the concrete server *)

(** A complete identity on the concrete server: the three requests on the
    object's URL. *)
Lemma single_object_requests_witness :
  calls_since (demo_world [])
    (snd (ThirdPartyResources_Get (X := demo_Collaborators) demo_tprs tt
            "metrics" "default" "foo" (Some 0) (demo_world [])))
    = [call_get jsonCodec
         "https://k8s.example.com/apis/metrics.example.com/v1/namespaces/default/metrics/foo"
         (Some 0)]
  /\ fst (ThirdPartyResources_Update (X := demo_Collaborators) demo_tprs tt
            "metrics" "default" "foo" (Some 0) (Some 0) (demo_world []))
     = None
  /\ fst (ThirdPartyResources_Delete (X := demo_Collaborators) demo_tprs tt
            "metrics" "default" "foo" (demo_world []))
     = None.
Proof.
  destruct (@single_object_requests demo_Schema demo_Collaborators demo_tprs tt
              "metrics" "default" "foo" (Some 0) (Some 0) (demo_world [])
              ltac:(discriminate) ltac:(discriminate) ltac:(discriminate)
              ltac:(discriminate) ltac:(discriminate))
    as [HG [HU HD]].
  rewrite HG, HU, HD. repeat split.
Defined.

Lemma collection_requests_witness :
  calls_since (demo_world [])
    (snd (ThirdPartyResources_Create (X := demo_Collaborators) demo_tprs tt
            "metrics" "default" (Some 0) (Some 0) (demo_world [])))
    = [call_create jsonCodec "POST"
         "https://k8s.example.com/apis/metrics.example.com/v1/namespaces/default/metrics"
         (Some 0) (Some 0)]
  /\ calls_since (demo_world [])
       (snd (ThirdPartyResources_List (X := demo_Collaborators) demo_tprs tt
               "metrics" "default" (Some 0) (demo_world [])))
     = [call_get jsonCodec
          "https://k8s.example.com/apis/metrics.example.com/v1/namespaces/default/metrics"
          (Some 0)].
Proof.
  destruct (@collection_requests demo_Schema demo_Collaborators demo_tprs tt
              "metrics" "default" (Some 0) (Some 0) (demo_world [])
              ltac:(discriminate) ltac:(discriminate) ltac:(discriminate)
              ltac:(discriminate))
    as [HC HL].
  rewrite HC, HL. split; reflexivity.
Defined.

Lemma Watch_returns_opened_watcher_or_error_witness :
  fst (ThirdPartyResources_Watch (X := demo_Collaborators) demo_tprs tt
         "metrics" "default" (demo_world []))
  = (Some demo_tpr_watcher, None).
Proof.
  apply (proj1 (@Watch_returns_opened_watcher_or_error demo_Schema demo_Collaborators
                  demo_tprs tt "metrics" "default" (demo_world []))).
  split; reflexivity.
Defined.

Lemma Watch_then_Close_closes_opened_witness :
  exists b : @ThirdPartyResourceWatcher demo_Schema,
    fst (ThirdPartyResources_Watch (X := demo_Collaborators) demo_tprs tt
           "metrics" "default" (demo_world []))
      = (Some b, None)
    /\ tpr_watcher b = 0
    /\ calls_since (demo_world [])
         (snd (ThirdPartyResourceWatcher_Close (X := demo_Collaborators) b
                 (snd (ThirdPartyResources_Watch (X := demo_Collaborators) demo_tprs tt
                         "metrics" "default" (demo_world [])))))
       = [call_watch
            "https://k8s.example.com/apis/metrics.example.com/v1/namespaces/default/metrics";
          call_Close (S := demo_Schema) 0].
Proof.
  destruct (@Watch_then_Close_closes_opened demo_Schema demo_Collaborators demo_tprs tt
              "metrics" "default" (demo_world []) 0 (@Build_Store demo_Schema [] [])
              ltac:(discriminate) ltac:(discriminate) ltac:(discriminate)
              ltac:(discriminate) eq_refl)
    as [b [HW [Hb HC]]].
  exists b. rewrite HW. cbn [fst snd]. rewrite HC.
  split; [reflexivity | split; [exact Hb | reflexivity]].
Defined.

Lemma APIWatch_then_Close_closes_opened_witness :
  exists a : @APIWatcher demo_Schema,
    fst (Discovery_APIWatch (X := demo_Collaborators) demo_discovery tt
           "extensions" "v1beta1" (demo_world []))
      = (Some a, None)
    /\ api_watcher a = 0
    /\ calls_since (demo_world [])
         (snd (APIWatcher_Close (X := demo_Collaborators) a
                 (snd (Discovery_APIWatch (X := demo_Collaborators) demo_discovery tt
                         "extensions" "v1beta1" (demo_world [])))))
       = [call_watch "https://k8s.example.com/apis/extensions/v1beta1";
          call_Close (S := demo_Schema) 0].
Proof.
  destruct (@APIWatch_then_Close_closes_opened demo_Schema demo_Collaborators
              demo_discovery tt "extensions" "v1beta1" (demo_world []) 0
              (@Build_Store demo_Schema [] []) eq_refl)
    as [a [HW [Ha HC]]].
  exists a. rewrite HW. cbn [fst snd]. rewrite HC.
  split; [reflexivity | split; [exact Ha | reflexivity]].
Defined.
